(** * sqlalchemy_query_helper: the query translation engine

    A shallow embedding of [sqlalchemy_query_helper/query_helper.py] and the
    properties of its filter, sort, pagination and count operations.

    Conventions of the embedding:
    - a Python [dict] is an association list in insertion order, with
      distinct keys; iterating a dict visits its bindings in that order;
    - a Python value that may be [None] or a query object is an
      [option Query]; a call that may raise returns a [result];
    - field names, operator tokens and ordering tokens are ASCII strings,
      and [upper] is the ASCII case mapping;
    - the relational query builder and the date parser are collaborators of
      the module: the builder is modelled by its generative interface (every
      method returns a new query that carries one more criterion and leaves
      its receiver untouched), the date parser is a parameter. *)

From Stdlib Require Import ZArith List Bool Ascii String Lia.
Import ListNotations.
Open Scope string_scope.
Open Scope Z_scope.

Set Warnings "-register-all".

(** ** Exceptions and the error monad *)

Inductive exception : Type :=
| AttributeError
| TypeError
| KeyError
| ValueError
| NotImplementedError (msg : string).

Inductive result (A : Type) : Type :=
| Ok (a : A)
| Raise (e : exception).

Arguments Ok {A} a.
Arguments Raise {A} e.

Definition bind {A B : Type} (m : result A) (k : A -> result B) : result B :=
  match m with
  | Ok a => k a
  | Raise e => Raise e
  end.

Notation "x <- m ;; k" := (bind m (fun x => k))
  (at level 61, m at next level, right associativity).

Fixpoint mapM {A B : Type} (f : A -> result B) (l : list A) : result (list B) :=
  match l with
  | [] => Ok []
  | a :: l' => b <- f a ;; bs <- mapM f l' ;; Ok (b :: bs)
  end.

(** ** Python values *)

(** The native date and time value the date parser produces. *)
Record datetime : Type := mk_datetime {
  year : Z; month : Z; day : Z;
  hour : Z; minute : Z; second : Z
}.

Inductive Value : Type :=
| VNone
| VBool (b : bool)
| VInt (n : Z)
| VStr (s : string)
| VDate (d : datetime)
| VList (l : list Value)
| VDict (d : list (string * Value)).

Definition Dict (A : Type) : Type := list (string * A).

(** [d.get(key)] on an insertion-ordered dict. *)
Fixpoint dict_get {A : Type} (key : string) (d : Dict A) : option A :=
  match d with
  | [] => None
  | (k, v) :: d' => if String.eqb k key then Some v else dict_get key d'
  end.

(** [d.get(key, default)]. *)
Definition dict_get_default {A : Type} (key : string) (default : A) (d : Dict A) : A :=
  match dict_get key d with
  | Some v => v
  | None => default
  end.

(** [d[key]], which raises [KeyError] on a missing key. *)
Definition dict_item {A : Type} (key : string) (d : Dict A) : result A :=
  match dict_get key d with
  | Some v => Ok v
  | None => Raise KeyError
  end.

Definition datetime_eqb (a b : datetime) : bool :=
  (year a =? year b) && (month a =? month b) && (day a =? day b)
  && (hour a =? hour b) && (minute a =? minute b) && (second a =? second b).

Fixpoint value_eqb (a b : Value) {struct a} : bool :=
  let fix list_eqb (l1 l2 : list Value) {struct l1} : bool :=
    match l1, l2 with
    | [], [] => true
    | x :: l1', y :: l2' => value_eqb x y && list_eqb l1' l2'
    | _, _ => false
    end in
  let fix dict_eqb (d1 d2 : list (string * Value)) {struct d1} : bool :=
    match d1, d2 with
    | [], [] => true
    | (k1, x) :: d1', (k2, y) :: d2' =>
        String.eqb k1 k2 && value_eqb x y && dict_eqb d1' d2'
    | _, _ => false
    end in
  match a, b with
  | VNone, VNone => true
  | VBool x, VBool y => Bool.eqb x y
  | VInt x, VInt y => x =? y
  | VStr x, VStr y => String.eqb x y
  | VDate x, VDate y => datetime_eqb x y
  | VList x, VList y => list_eqb x y
  | VDict x, VDict y => dict_eqb x y
  | _, _ => false
  end.

(** ** Strings: [str.upper()] *)

Definition is_lower (c : ascii) : bool :=
  let n := nat_of_ascii c in (97 <=? n)%nat && (n <=? 122)%nat.

Definition is_upper (c : ascii) : bool :=
  let n := nat_of_ascii c in (65 <=? n)%nat && (n <=? 90)%nat.

Definition upper_ascii (c : ascii) : ascii :=
  if is_lower c then ascii_of_nat (nat_of_ascii c - 32) else c.

Definition lower_ascii (c : ascii) : ascii :=
  if is_upper c then ascii_of_nat (nat_of_ascii c + 32) else c.

Fixpoint upper (s : string) : string :=
  match s with
  | EmptyString => EmptyString
  | String c s' => String (upper_ascii c) (upper s')
  end.

(** Two strings that differ at most in the case of their letters. *)
Inductive same_ignoring_case : string -> string -> Prop :=
| sic_empty : same_ignoring_case "" ""
| sic_char : forall c d s t,
    (c = d \/ c = lower_ascii d \/ c = upper_ascii d) ->
    same_ignoring_case s t ->
    same_ignoring_case (String c s) (String d t).

(** ** The relational query builder

    The module composes queries through four generative methods of the
    builder's query object: [filter], [order_by], [offset] and [limit].  Each
    returns a new query carrying one more criterion; the receiver is left as
    it was.  A query is therefore the rows it selects from together with the
    criteria attached so far, in attachment order. *)

Record Model : Type := mk_model {
  tablename : string;
  columns : list string
}.

Definition Row : Type := Dict Value.

(** A session reaches the stored rows of every mapped table. *)
Definition Session : Type := Dict (list Row).

(** Clauses built from a column, as the [filter] method receives them. *)
Inductive ColumnElement : Type :=
| Is_null (column : string)
| Eq_ (column : string) (v : Value)
| Ne_ (column : string) (v : Value)
| Lt_ (column : string) (v : Value)
| Gt_ (column : string) (v : Value)
| In_ (column : string) (v : Value)
| Notin_ (column : string) (v : Value)
| Or_ (a b : ColumnElement).

Inductive Ordering : Type :=
| Asc (column : string)
| Desc (column : string).

Definition asc (column : string) : Ordering := Asc column.
Definition desc (column : string) : Ordering := Desc column.

Inductive Criterion : Type :=
| Filter (p : ColumnElement)
| Order_by (o : Ordering)
| Offset (v : Value)
| Limit (v : Value).

Record Query : Type := mk_query {
  source : list Row;
  criteria : list Criterion
}.

Definition attach (q : Query) (c : Criterion) : Query :=
  {| source := source q; criteria := criteria q ++ [c] |}.

Definition Query_filter (q : Query) (p : ColumnElement) : Query := attach q (Filter p).
Definition Query_order_by (q : Query) (o : Ordering) : Query := attach q (Order_by o).
Definition Query_offset (q : Query) (v : Value) : Query := attach q (Offset v).
Definition Query_limit (q : Query) (v : Value) : Query := attach q (Limit v).

(** [session_obj.query(model_cls)]: the base query over the model's table. *)
Definition Session_query (session_obj : Session) (model_cls : Model) : Query :=
  {| source := dict_get_default (tablename model_cls) [] session_obj;
     criteria := [] |}.

(** Looking a method up on a record set: [None] has none of them. *)
Definition receiver (record_set : option Query) : result Query :=
  match record_set with
  | Some q => Ok q
  | None => Raise AttributeError
  end.

(** [getattr(model_cls, field)]: the mapped column of that name.  The model
    covers field names that are mapped columns of the class or that the
    class does not define; the other attributes a class has (such as
    [__doc__]) are outside it. *)
Definition getattr (model_cls : Model) (field : string) : result string :=
  if existsb (String.eqb field) (columns model_cls)
  then Ok field
  else Raise AttributeError.

(** [value | column] for a filter value on the left and a column on the
    right.  No value a filter carries (null, boolean, integer, string, date,
    list) implements [|] with a column operand and a column has no reflected
    [|], so the expression raises and yields no operand at all. *)
Definition py_or (operator_value : Value) (column : string) : result Empty_set :=
  Raise TypeError.

(** [value > n] for an integer literal [n]; booleans compare as 0 and 1, any
    other kind of value is not ordered against an integer. *)
Definition py_gt (value : Value) (n : Z) : result bool :=
  match value with
  | VInt m => Ok (n <? m)
  | VBool b => Ok (n <? (if b then 1 else 0))
  | _ => Raise TypeError
  end.

(** *** Executing a query: the rows it selects

    Relational semantics of the criteria, as far as counting needs them, for
    cells and operands that are integers or null: a row is kept when every
    filter clause is true of it (a comparison with a null column is never
    true).  Ordered comparisons are modelled on integers only, and the
    membership tests on lists that are not empty. *)

Definition row_get (column : string) (row : Row) : Value :=
  dict_get_default column VNone row.

Definition is_none (v : Value) : bool :=
  match v with VNone => true | _ => false end.

Fixpoint holds (p : ColumnElement) (row : Row) : bool :=
  match p with
  | Is_null c => is_none (row_get c row)
  | Eq_ c v =>
      if is_none v then is_none (row_get c row)
      else negb (is_none (row_get c row)) && value_eqb (row_get c row) v
  | Ne_ c v =>
      if is_none v then negb (is_none (row_get c row))
      else negb (is_none (row_get c row)) && negb (value_eqb (row_get c row) v)
  | Lt_ c v =>
      match row_get c row, v with
      | VInt a, VInt b => a <? b
      | _, _ => false
      end
  | Gt_ c v =>
      match row_get c row, v with
      | VInt a, VInt b => b <? a
      | _, _ => false
      end
  | In_ c v =>
      match v with
      | VList l => negb (is_none (row_get c row)) && existsb (value_eqb (row_get c row)) l
      | _ => false
      end
  | Notin_ c v =>
      match v with
      | VList l =>
          negb (is_none (row_get c row)) && negb (existsb (value_eqb (row_get c row)) l)
      | _ => false
      end
  | Or_ a b => holds a row || holds b row
  end.

Definition filters (q : Query) : list ColumnElement :=
  flat_map (fun c => match c with Filter p => [p] | _ => [] end) (criteria q).

Definition orderings (q : Query) : list Ordering :=
  flat_map (fun c => match c with Order_by o => [o] | _ => [] end) (criteria q).

Definition bound (v : Value) : nat :=
  match v with
  | VInt n => Z.to_nat n
  | VBool true => 1%nat
  | _ => 0%nat
  end.

(** The last offset, respectively limit, attached to the query. *)
Definition offset_of (q : Query) : option Value :=
  fold_left (fun acc c => match c with Offset v => Some v | _ => acc end) (criteria q) None.

Definition limit_of (q : Query) : option Value :=
  fold_left (fun acc c => match c with Limit v => Some v | _ => acc end) (criteria q) None.

Definition matching (q : Query) : list Row :=
  filter (fun row => forallb (fun p => holds p row) (filters q)) (source q).

Definition selected (q : Query) : list Row :=
  let skipped :=
    match offset_of q with Some v => skipn (bound v) (matching q) | None => matching q end in
  match limit_of q with Some v => firstn (bound v) skipped | None => skipped end.

(** [query.count()]. *)
Definition Query_count (q : Query) : Z := Z.of_nat (List.length (selected q)).

(** ** The module [query_helper] *)

(** A filter clause: field name to operator token to value. *)
Definition Clause : Type := Dict (Dict Value).

(** The pagination arguments.  The dict is read at three keys only; a field
    is [None] when its key is missing from the dict. *)
Record PaginationArgs : Type := mk_pagination {
  offset : option Value;
  limit : option Value;
  sort : option (list (list (string * string)))
}.

(** The empty dict [{}]. *)
Definition no_pagination : PaginationArgs :=
  {| offset := None; limit := None; sort := None |}.

Definition SUPPORTED_QUERY_OPERATORS : list string :=
  ["$ne"; "$eq"; "$in"; "$nin"; "$gt"; "$gte"; "$lt"; "$lte"].

Definition supported (operator : string) : bool :=
  existsb (String.eqb operator) SUPPORTED_QUERY_OPERATORS.

(** [pagination_args[key]] for a key that may be missing. *)
Definition item {A : Type} (entry : option A) : result A :=
  match entry with
  | Some v => Ok v
  | None => Raise KeyError
  end.

(** [query_limit(record_set, pagination_args)]. *)
Definition query_limit (record_set : option Query)
    (pagination_args : option PaginationArgs) : result (option Query) :=
  let pagination_args :=
    match pagination_args with Some p => p | None => no_pagination end in
  positive <- py_gt (match offset pagination_args with Some v => v | None => VInt 0 end) 0 ;;
  record_set <-
    (if positive : bool
     then q <- receiver record_set ;;
          v <- item (offset pagination_args) ;;
          Ok (Some (Query_offset q v))
     else Ok record_set) ;;
  positive <- py_gt (match limit pagination_args with Some v => v | None => VInt 0 end) 0 ;;
  record_set <-
    (if positive : bool
     then q <- receiver record_set ;;
          v <- item (limit pagination_args) ;;
          Ok (Some (Query_limit q v))
     else Ok record_set) ;;
  Ok record_set.

(** The ordering function a direction token selects in [_query_sort]. *)
Definition order_func (ordering : string) : result (string -> Ordering) :=
  if String.eqb (upper ordering) "ASC" then Ok asc
  else if String.eqb (upper ordering) "DESC" then Ok desc
  else Raise (NotImplementedError (ordering ++ " isn't a valid ordering functions")).

(** The inner loop of [_query_sort], over the pairs of one group.  The query
    that [order_by] returns is bound to nothing: the loop goes on with the
    record set it was given. *)
Fixpoint sort_pairs (model_cls : Model) (record_set : option Query)
    (sort_param : list (string * string)) : result unit :=
  match sort_param with
  | [] => Ok tt
  | (field, ordering) :: rest =>
      f <- order_func ordering ;;
      q <- receiver record_set ;;
      column <- getattr model_cls field ;;
      let _ := Query_order_by q (f column) in
      sort_pairs model_cls record_set rest
  end.

Fixpoint sort_groups (model_cls : Model) (record_set : option Query)
    (sort_params : list (list (string * string))) : result unit :=
  match sort_params with
  | [] => Ok tt
  | sort_param :: rest =>
      _ <- sort_pairs model_cls record_set sort_param ;;
      sort_groups model_cls record_set rest
  end.

(** [_query_sort(model_cls, record_set, sort_params)]. *)
Definition _query_sort (model_cls : Model) (record_set : option Query)
    (sort_params : list (list (string * string))) : result (option Query) :=
  _ <- sort_groups model_cls record_set sort_params ;;
  Ok record_set.

Section WithDateParser.

(** [dateutil.parser.parse] on a string. *)
Variable parse_date_string : string -> result datetime.

(** [parse_date(date_val)]: the parser takes strings only. *)
Definition parse_date (date_val : Value) : result Value :=
  match date_val with
  | VStr s => d <- parse_date_string s ;; Ok (VDate d)
  | _ => Raise TypeError
  end.

(** [_convert_if_date(value)].  A value with [items] and [fromkeys] is a
    dict; a value with [append] and [clear] is a list. *)
Definition _convert_if_date (value : Value) : result Value :=
  match value with
  | VDict d =>
      tagged <- dict_item "$date" d ;;
      match tagged with
      | VList date_vals => dates <- mapM parse_date date_vals ;; Ok (VList dates)
      | _ => parse_date tagged
      end
  | _ => Ok value
  end.

(** The body of the inner loop of [_apply_query_param] for one operator of
    one field.  [Some q] is the record set the function returns from that
    iteration; [None] means that no branch was taken and the loop goes on.
    In the two inclusive branches the source reads
    [column < operator_value | column == operator_value]; [|] binds tighter
    than the comparisons, so the expression is the chain
    [column < (operator_value | column) == operator_value], whose middle
    operand is computed before any comparison.  In the other branches the
    clause is recorded as it is written; whether the builder accepts the
    operand (an ordered comparison with null or a boolean, a membership test
    against a value that is no list) is not modelled. *)
Definition apply_operator (model_cls : Model) (record_set : option Query)
    (field operator : string) (raw : Value) : result (option Query) :=
  operator_value <- _convert_if_date raw ;;
  if String.eqb operator "$eq" then
    match operator_value with
    | VNone =>
        q <- receiver record_set ;;
        column <- getattr model_cls field ;;
        Ok (Some (Query_filter q (Is_null column)))
    | _ =>
        q <- receiver record_set ;;
        column <- getattr model_cls field ;;
        Ok (Some (Query_filter q (Eq_ column operator_value)))
    end
  else if String.eqb operator "$ne" then
    q <- receiver record_set ;;
    column <- getattr model_cls field ;;
    Ok (Some (Query_filter q (Ne_ column operator_value)))
  else if String.eqb operator "$lt" then
    q <- receiver record_set ;;
    column <- getattr model_cls field ;;
    Ok (Some (Query_filter q (Lt_ column operator_value)))
  else if String.eqb operator "$lte" then
    q <- receiver record_set ;;
    column <- getattr model_cls field ;;
    column' <- getattr model_cls field ;;
    middle <- py_or operator_value column' ;;
    match middle : Empty_set with end
  else if String.eqb operator "$gt" then
    q <- receiver record_set ;;
    column <- getattr model_cls field ;;
    Ok (Some (Query_filter q (Gt_ column operator_value)))
  else if String.eqb operator "$gte" then
    q <- receiver record_set ;;
    column <- getattr model_cls field ;;
    column' <- getattr model_cls field ;;
    middle <- py_or operator_value column' ;;
    match middle : Empty_set with end
  else if String.eqb operator "$nin" then
    q <- receiver record_set ;;
    column <- getattr model_cls field ;;
    Ok (Some (Query_filter q (Notin_ column operator_value)))
  else if String.eqb operator "$in" then
    q <- receiver record_set ;;
    column <- getattr model_cls field ;;
    Ok (Some (Query_filter q (In_ column operator_value)))
  else Ok None.

(** The inner loop of [_apply_query_param]: the operators of one field. *)
Fixpoint apply_operators (model_cls : Model) (record_set : option Query)
    (field : string) (operators : Dict Value) : result (option Query) :=
  match operators with
  | [] => Ok None
  | (operator, raw) :: rest =>
      returned <- apply_operator model_cls record_set field operator raw ;;
      match returned with
      | Some q => Ok (Some q)
      | None => apply_operators model_cls record_set field rest
      end
  end.

(** [_apply_query_param(model_cls, record_set, params)].  When both loops
    run to their end the function returns nothing, that is [None]. *)
Fixpoint _apply_query_param (model_cls : Model) (record_set : option Query)
    (params : Clause) : result (option Query) :=
  match params with
  | [] => Ok None
  | (field, operators) :: rest =>
      returned <- apply_operators model_cls record_set field operators ;;
      match returned with
      | Some q => Ok (Some q)
      | None => _apply_query_param model_cls record_set rest
      end
  end.

(** The loop of [query] over the filter clauses. *)
Fixpoint apply_params (model_cls : Model) (record_set : option Query)
    (params : list Clause) : result (option Query) :=
  match params with
  | [] => Ok record_set
  | param :: rest =>
      record_set <- _apply_query_param model_cls record_set param ;;
      apply_params model_cls record_set rest
  end.

(** [query(session_obj, model_cls, params, pagination_args)]. *)
Definition query (session_obj : Session) (model_cls : Model)
    (params : option (list Clause)) (pagination_args : option PaginationArgs)
    : result (option Query) :=
  let params := match params with Some p => p | None => [] end in
  let pagination_args :=
    match pagination_args with Some p => p | None => no_pagination end in
  let record_set := Some (Session_query session_obj model_cls) in
  record_set <- apply_params model_cls record_set params ;;
  record_set <- _query_sort model_cls record_set
                  (match sort pagination_args with Some s => s | None => [] end) ;;
  query_limit record_set (Some pagination_args).

(** [count(session_obj, model_cls, params)].  A query object is always true;
    [None] is false. *)
Definition count (session_obj : Session) (model_cls : Model)
    (params : option (list Clause)) : result (Dict Value) :=
  result_ <- query session_obj model_cls params (Some no_pagination) ;;
  let count_ :=
    match result_ with
    | Some q => Query_count q
    | None => 0
    end in
  Ok [("count", VInt count_)].

End WithDateParser.

(** ** What the specification expects of the filter applier

    The predicate that section 4.1 of the specification assigns to one
    operator of one field, for a value that is already normalised; an
    operator outside the supported set has none. *)
Definition spec_predicate (field operator : string) (v : Value) : option ColumnElement :=
  if String.eqb operator "$eq" then
    Some (if is_none v then Is_null field else Eq_ field v)
  else if String.eqb operator "$ne" then Some (Ne_ field v)
  else if String.eqb operator "$gt" then Some (Gt_ field v)
  else if String.eqb operator "$gte" then Some (Or_ (Gt_ field v) (Eq_ field v))
  else if String.eqb operator "$lt" then Some (Lt_ field v)
  else if String.eqb operator "$lte" then Some (Or_ (Lt_ field v) (Eq_ field v))
  else if String.eqb operator "$in" then Some (In_ field v)
  else if String.eqb operator "$nin" then Some (Notin_ field v)
  else None.

(** One predicate for each clause, each field and each operator, in order
    (for clauses whose values carry no date tag). *)
Definition spec_filters (params : list Clause) : list ColumnElement :=
  flat_map (fun param : Clause =>
    flat_map (fun binding : string * Dict Value =>
      flat_map (fun pair : string * Value =>
        match spec_predicate (fst binding) (fst pair) (snd pair) with
        | Some p => [p]
        | None => []
        end) (snd binding)) param) params.

(** The records of a table that satisfy every expected predicate. *)
Definition records_matching (params : list Clause) (rows : list Row) : list Row :=
  filter (fun row => forallb (fun p => holds p row) (spec_filters params)) rows.

(** A value is date-tagged when it is a dict with the key [$date]. *)
Definition date_tagged (value : Value) : bool :=
  match value with
  | VDict d => match dict_get "$date" d with Some _ => true | None => false end
  | _ => false
  end.

Definition is_mapping (value : Value) : bool :=
  match value with VDict _ => true | _ => false end.

(** A sort directive the sort applier goes past: its field is mapped and its
    direction is one of the two tokens, in any case. *)
Definition valid_directive (model_cls : Model) (directive : string * string) : Prop :=
  In (fst directive) (columns model_cls)
  /\ (same_ignoring_case (snd directive) "ASC"
      \/ same_ignoring_case (snd directive) "DESC").

(** The criteria pagination adds for an integer entry of the directive. *)
Definition offset_criteria (entry : option Z) : list Criterion :=
  match entry with
  | Some n => if 0 <? n then [Offset (VInt n)] else []
  | None => []
  end.

Definition limit_criteria (entry : option Z) : list Criterion :=
  match entry with
  | Some n => if 0 <? n then [Limit (VInt n)] else []
  | None => []
  end.

(** ** Shapes of input used by the further properties *)

(** An operator and value pair the inner loop goes past: the token is
    outside the supported set and the value normalises. *)
Definition skipped_pair (parse_date_string : string -> result datetime)
    (pair : string * Value) : Prop :=
  supported (fst pair) = false
  /\ exists value, _convert_if_date parse_date_string (snd pair) = Ok value.






(** The values [>] orders against an integer. *)
Definition is_number (value : Value) : bool :=
  match value with
  | VInt _ | VBool _ => true
  | _ => false
  end.

(** A sort directive whose direction is neither token. *)
Definition invalid_direction (directive : string * string) : Prop :=
  ~ same_ignoring_case (snd directive) "ASC"
  /\ ~ same_ignoring_case (snd directive) "DESC".

(** ** A fixture: one table of two records *)

Definition person : Model :=
  {| tablename := "person"; columns := ["name"; "age"] |}.

Definition person_rows : list Row :=
  [ [("name", VStr "ann"); ("age", VInt 3)];
    [("name", VStr "bob"); ("age", VInt 10)] ].

Definition store : Session := [("person", person_rows)].

Definition people : Query := Session_query store person.

(** A second table, of integer columns, one cell of it null. *)
Definition reading : Model :=
  {| tablename := "reading"; columns := ["sensor"; "level"] |}.

Definition reading_rows : list Row :=
  [ [("sensor", VInt 1); ("level", VInt 3)];
    [("sensor", VInt 1); ("level", VInt 8)];
    [("sensor", VInt 2); ("level", VNone)];
    [("sensor", VInt 3); ("level", VInt 8)] ].

Definition archive : Session := [("person", person_rows); ("reading", reading_rows)].

(** A date parser that reads two dates and rejects every other string. *)
Definition fixture_parser (s : string) : result datetime :=
  if String.eqb s "2023-01-01" then Ok (mk_datetime 2023 1 1 0 0 0)
  else if String.eqb s "2023-02-01" then Ok (mk_datetime 2023 2 1 0 0 0)
  else Raise ValueError.

(** * Properties *)

(** ** The error monad *)

Lemma bind_Ok {A B : Type} (a : A) (k : A -> result B) : bind (Ok a) k = k a.
Proof. reflexivity. Qed.

Lemma bind_Raise {A B : Type} (e : exception) (k : A -> result B) :
  bind (Raise e) k = Raise e.
Proof. reflexivity. Qed.

Lemma bind_inv_Ok {A B : Type} (m : result A) (k : A -> result B) (b : B) :
  bind m k = Ok b -> exists a, m = Ok a /\ k a = Ok b.
Proof.
  destruct m as [a | e]; simpl; intros H.
  - exists a. split; [reflexivity | exact H].
  - discriminate H.
Qed.

Lemma getattr_mapped (model_cls : Model) (field : string) :
  In field (columns model_cls) -> getattr model_cls field = Ok field.
Proof.
  intros Hin. unfold getattr.
  replace (existsb (String.eqb field) (columns model_cls)) with true; [reflexivity |].
  symmetry. apply existsb_exists. exists field. split; [exact Hin |].
  apply String.eqb_refl.
Qed.

Lemma getattr_Ok (model_cls : Model) (field column : string) :
  getattr model_cls field = Ok column -> column = field.
Proof.
  unfold getattr. destruct (existsb _ _); intros H; [| discriminate H].
  injection H as H. symmetry. exact H.
Qed.

(** ** Case-insensitive matching of a token *)

Lemma upper_ascii_same (c : ascii) :
  c = upper_ascii c \/ c = lower_ascii (upper_ascii c).
Proof.
  destruct c as [[] [] [] [] [] [] [] []]; vm_compute; auto.
Qed.

Lemma upper_lower_ascii (d : ascii) : upper_ascii (lower_ascii d) = upper_ascii d.
Proof.
  destruct d as [[] [] [] [] [] [] [] []]; vm_compute; reflexivity.
Qed.

Lemma upper_upper_ascii (d : ascii) : upper_ascii (upper_ascii d) = upper_ascii d.
Proof.
  destruct d as [[] [] [] [] [] [] [] []]; vm_compute; reflexivity.
Qed.

Lemma same_ignoring_case_upper (s : string) : same_ignoring_case s (upper s).
Proof.
  induction s as [| c s IH]; simpl.
  - constructor.
  - constructor; [| exact IH].
    destruct (upper_ascii_same c) as [H | H]; auto.
Qed.

Lemma upper_same_ignoring_case (s t : string) :
  same_ignoring_case s t -> upper s = upper t.
Proof.
  induction 1 as [| c d s t Hc _ IH]; simpl; [reflexivity |].
  rewrite IH. f_equal.
  destruct Hc as [-> | [-> | ->]].
  - reflexivity.
  - apply upper_lower_ascii.
  - apply upper_upper_ascii.
Qed.

(** A token equals an upper-case word after [upper] exactly when it is that
    word up to the case of its letters. *)
Lemma upper_matches (token word : string) :
  upper word = word ->
  (upper token = word <-> same_ignoring_case token word).
Proof.
  intros Hword. split.
  - intros <-. apply same_ignoring_case_upper.
  - intros H. rewrite <- Hword. apply upper_same_ignoring_case. exact H.
Qed.

Lemma order_func_asc (ordering : string) :
  same_ignoring_case ordering "ASC" -> order_func ordering = Ok asc.
Proof.
  intros H. apply (upper_matches ordering "ASC" eq_refl) in H.
  unfold order_func. rewrite H. reflexivity.
Qed.

Lemma order_func_desc (ordering : string) :
  same_ignoring_case ordering "DESC" -> order_func ordering = Ok desc.
Proof.
  intros H. apply (upper_matches ordering "DESC" eq_refl) in H.
  unfold order_func. rewrite H. reflexivity.
Qed.

Lemma order_func_invalid (ordering : string) :
  ~ same_ignoring_case ordering "ASC" ->
  ~ same_ignoring_case ordering "DESC" ->
  order_func ordering =
    Raise (NotImplementedError (ordering ++ " isn't a valid ordering functions")).
Proof.
  intros Hasc Hdesc. unfold order_func.
  destruct (String.eqb (upper ordering) "ASC") eqn:E1.
  - exfalso. apply Hasc. apply (upper_matches ordering "ASC" eq_refl).
    apply String.eqb_eq. exact E1.
  - destruct (String.eqb (upper ordering) "DESC") eqn:E2; [| reflexivity].
    exfalso. apply Hdesc. apply (upper_matches ordering "DESC" eq_refl).
    apply String.eqb_eq. exact E2.
Qed.

Lemma order_func_Ok (ordering : string) (f : string -> Ordering) :
  order_func ordering = Ok f ->
  (same_ignoring_case ordering "ASC" /\ f = asc)
  \/ (same_ignoring_case ordering "DESC" /\ f = desc).
Proof.
  unfold order_func.
  destruct (String.eqb (upper ordering) "ASC") eqn:E1.
  - intros H. injection H as <-. left. split; [| reflexivity].
    apply (upper_matches ordering "ASC" eq_refl). apply String.eqb_eq. exact E1.
  - destruct (String.eqb (upper ordering) "DESC") eqn:E2; [| discriminate].
    intros H. injection H as <-. right. split; [| reflexivity].
    apply (upper_matches ordering "DESC" eq_refl). apply String.eqb_eq. exact E2.
Qed.

(** ** The sort applier *)

Lemma sort_pairs_app (model_cls : Model) (record_set : option Query)
    (l1 l2 : list (string * string)) :
  sort_pairs model_cls record_set (l1 ++ l2)%list =
    (_ <- sort_pairs model_cls record_set l1 ;; sort_pairs model_cls record_set l2).
Proof.
  induction l1 as [| [field ordering] l1 IH]; simpl; [reflexivity |].
  destruct (order_func ordering); simpl; [| reflexivity].
  destruct (receiver record_set); simpl; [| reflexivity].
  destruct (getattr model_cls field); simpl; [| reflexivity].
  exact IH.
Qed.

Lemma sort_groups_app (model_cls : Model) (record_set : option Query)
    (g1 g2 : list (list (string * string))) :
  sort_groups model_cls record_set (g1 ++ g2)%list =
    (_ <- sort_groups model_cls record_set g1 ;; sort_groups model_cls record_set g2).
Proof.
  induction g1 as [| g g1 IH]; simpl; [reflexivity |].
  destruct (sort_pairs model_cls record_set g); simpl; [| reflexivity].
  exact IH.
Qed.

Lemma order_func_valid (ordering : string) :
  same_ignoring_case ordering "ASC" \/ same_ignoring_case ordering "DESC" ->
  exists f, order_func ordering = Ok f.
Proof.
  intros [H | H].
  - exists asc. apply order_func_asc. exact H.
  - exists desc. apply order_func_desc. exact H.
Qed.

Lemma sort_pairs_valid (model_cls : Model) (q : Query) (l : list (string * string)) :
  Forall (valid_directive model_cls) l ->
  sort_pairs model_cls (Some q) l = Ok tt.
Proof.
  induction 1 as [| [field ordering] l [Hfield Hdir] _ IH]; simpl; [reflexivity |].
  simpl in Hfield, Hdir.
  destruct (order_func_valid ordering Hdir) as [f ->]. simpl.
  rewrite (getattr_mapped model_cls field Hfield). simpl.
  exact IH.
Qed.

Lemma sort_groups_valid (model_cls : Model) (q : Query)
    (groups : list (list (string * string))) :
  Forall (Forall (valid_directive model_cls)) groups ->
  sort_groups model_cls (Some q) groups = Ok tt.
Proof.
  induction 1 as [| g groups Hg _ IH]; simpl; [reflexivity |].
  rewrite (sort_pairs_valid model_cls q g Hg). simpl. exact IH.
Qed.

(** Whatever the directives, a sort that returns, returns the record set it
    was given. *)
Lemma query_sort_returns_its_input (model_cls : Model) (record_set returned : option Query)
    (sort_params : list (list (string * string))) :
  _query_sort model_cls record_set sort_params = Ok returned ->
  returned = record_set.
Proof.
  unfold _query_sort.
  destruct (sort_groups model_cls record_set sort_params); simpl; intros H.
  - injection H as H. symmetry. exact H.
  - discriminate H.
Qed.

Lemma asc_is_not_desc : asc <> desc.
Proof.
  intros H. assert (E : asc "" = desc "") by (rewrite H; reflexivity).
  discriminate E.
Qed.

(** C4.  The claim: for valid directions the sort applier returns an
    accumulator with one ascending or descending order clause per directive,
    in the given order.  The code calls [order_by] and drops the query it
    returns: for the directive [[("age", "DESC")]] on the base query of the
    fixture, [_query_sort] returns that base query itself, which carries no
    order clause, and so does [query] with that directive under ["sort"]. *)
Theorem query_sort_attaches_no_order_clause :
  _query_sort person (Some people) [[("age", "DESC")]] = Ok (Some people)
  /\ orderings people = []
  /\ query fixture_parser store person None
       (Some {| offset := None; limit := None; sort := Some [[("age", "DESC")]] |})
     = Ok (Some people).
Proof.
  repeat split; reflexivity.
Qed.

(** C6.  The direction token of a sort directive is matched against "ASC"
    and "DESC" without regard to case, and a token that is neither makes the
    sort fail with the unsupported-ordering error at that directive: when
    the directives before it are valid, [_query_sort] raises
    [NotImplementedError] and returns no accumulator. *)
Theorem sort_direction_matched_ignoring_case (model_cls : Model) (q : Query)
    (done later : list (list (string * string)))
    (before after : list (string * string)) (field ordering : string) :
  Forall (Forall (valid_directive model_cls)) done ->
  Forall (valid_directive model_cls) before ->
  (order_func ordering = Ok asc <-> same_ignoring_case ordering "ASC")
  /\ (order_func ordering = Ok desc <-> same_ignoring_case ordering "DESC")
  /\ (~ same_ignoring_case ordering "ASC" ->
      ~ same_ignoring_case ordering "DESC" ->
      _query_sort model_cls (Some q)
        (done ++ (before ++ (field, ordering) :: after) :: later)%list
      = Raise (NotImplementedError (ordering ++ " isn't a valid ordering functions"))).
Proof.
  intros Hdone Hbefore. split; [| split].
  - split; [| apply order_func_asc].
    intros H. destruct (order_func_Ok ordering asc H) as [[Hs _] | [_ Hf]].
    + exact Hs.
    + destruct (asc_is_not_desc Hf).
  - split; [| apply order_func_desc].
    intros H. destruct (order_func_Ok ordering desc H) as [[_ Hf] | [Hs _]].
    + destruct (asc_is_not_desc (eq_sym Hf)).
    + exact Hs.
  - intros Hasc Hdesc. unfold _query_sort.
    rewrite sort_groups_app, (sort_groups_valid model_cls q done Hdone).
    simpl. rewrite sort_pairs_app, (sort_pairs_valid model_cls q before Hbefore).
    simpl. rewrite (order_func_invalid ordering Hasc Hdesc). reflexivity.
Qed.

Lemma up_is_no_direction :
  ~ same_ignoring_case "UP" "ASC" /\ ~ same_ignoring_case "UP" "DESC".
Proof.
  split; intros H; apply upper_same_ignoring_case in H; discriminate H.
Qed.

Lemma sort_direction_matched_ignoring_case_witness :
  _query_sort person (Some people) [[("name", "asc")]; [("age", "Desc"); ("age", "UP")]]
  = Raise (NotImplementedError "UP isn't a valid ordering functions").
Proof.
  apply (sort_direction_matched_ignoring_case person people
           [[("name", "asc")]] [] [("age", "Desc")] [] "age" "UP").
  - apply Forall_cons; [| apply Forall_nil].
    apply Forall_cons; [| apply Forall_nil].
    split; [simpl; auto |].
    left. apply (upper_matches "asc" "ASC" eq_refl). reflexivity.
  - apply Forall_cons; [| apply Forall_nil].
    split; [simpl; auto |].
    right. apply (upper_matches "Desc" "DESC" eq_refl). reflexivity.
  - exact (proj1 up_is_no_direction).
  - exact (proj2 up_is_no_direction).
Defined.

(** A sort with an invalid direction anywhere among its directives returns
    no accumulator, whatever the record set and the fields. *)
Lemma sort_pairs_invalid_raises (model_cls : Model) (record_set : option Query)
    (l : list (string * string)) :
  Exists (fun directive =>
            ~ same_ignoring_case (snd directive) "ASC"
            /\ ~ same_ignoring_case (snd directive) "DESC") l ->
  exists e, sort_pairs model_cls record_set l = Raise e.
Proof.
  induction l as [| [field ordering] l IH]; intros H.
  - inversion H.
  - simpl. inversion H as [? ? [Hasc Hdesc] | ? ? Hl]; subst.
    + simpl in Hasc, Hdesc. rewrite (order_func_invalid ordering Hasc Hdesc).
      simpl. eexists. reflexivity.
    + destruct (order_func ordering); simpl; [| eexists; reflexivity].
      destruct (receiver record_set); simpl; [| eexists; reflexivity].
      destruct (getattr model_cls field); simpl; [| eexists; reflexivity].
      apply IH. exact Hl.
Qed.

Lemma query_sort_invalid_raises (model_cls : Model) (record_set : option Query)
    (sort_params : list (list (string * string))) :
  Exists (Exists (fun directive =>
                    ~ same_ignoring_case (snd directive) "ASC"
                    /\ ~ same_ignoring_case (snd directive) "DESC")) sort_params ->
  exists e, _query_sort model_cls record_set sort_params = Raise e.
Proof.
  unfold _query_sort.
  induction sort_params as [| g groups IH]; intros H.
  - inversion H.
  - simpl. inversion H as [? ? Hg | ? ? Hgroups]; subst.
    + destruct (sort_pairs_invalid_raises model_cls record_set g Hg) as [e ->].
      simpl. eexists. reflexivity.
    + destruct (sort_pairs model_cls record_set g); simpl; [| eexists; reflexivity].
      apply IH. exact Hgroups.
Qed.

(** ** The pagination applier *)

(** C7.  For a directive with integer entries, pagination attaches an offset
    bound exactly when the offset entry is present and strictly positive and
    a limit bound exactly when the limit entry is present and strictly
    positive; a zero or missing entry attaches nothing, and the offset bound
    is attached before the limit bound. *)
Theorem query_limit_bounds (q : Query) (offset_entry limit_entry : option Z)
    (sort_entry : option (list (list (string * string)))) :
  query_limit (Some q)
    (Some {| offset := option_map VInt offset_entry;
             limit := option_map VInt limit_entry;
             sort := sort_entry |})
  = Ok (Some {| source := source q;
                criteria := (criteria q ++ offset_criteria offset_entry
                               ++ limit_criteria limit_entry)%list |}).
Proof.
  unfold query_limit, offset_criteria, limit_criteria. simpl.
  destruct offset_entry as [o |], limit_entry as [l |]; simpl;
    try destruct (0 <? o); try destruct (0 <? l); simpl;
    unfold Query_offset, Query_limit, attach; simpl;
    rewrite ?app_nil_r, <- ?app_assoc; destruct q; reflexivity.
Qed.

(** ** Absent arguments *)

(** C10.  [query] with absent filter clauses and an absent pagination
    directive returns what it returns for an empty clause list and an empty
    directive, and [query_limit] with an absent directive returns the
    accumulator it was given. *)
Theorem absent_arguments_default (parse_date_string : string -> result datetime)
    (session_obj : Session) (model_cls : Model) (record_set : option Query) :
  query parse_date_string session_obj model_cls None None
  = query parse_date_string session_obj model_cls (Some []) (Some no_pagination)
  /\ query parse_date_string session_obj model_cls None None
     = Ok (Some (Session_query session_obj model_cls))
  /\ query_limit record_set None = Ok record_set.
Proof.
  repeat split; reflexivity.
Qed.

(** ** The value normaliser *)

Lemma mapM_parse_date_strings (parse_date_string : string -> result datetime)
    (strings : list string) (dates : list datetime) :
  Forall2 (fun s date => parse_date_string s = Ok date) strings dates ->
  mapM (parse_date parse_date_string) (map VStr strings) = Ok (map VDate dates).
Proof.
  induction 1 as [| s date strings dates Hs _ IH]; simpl; [reflexivity |].
  rewrite Hs. simpl. rewrite IH. reflexivity.
Qed.

Lemma convert_if_date_not_mapping (parse_date_string : string -> result datetime)
    (value : Value) :
  is_mapping value = false -> _convert_if_date parse_date_string value = Ok value.
Proof.
  destruct value; simpl; intros H; try reflexivity. discriminate H.
Qed.

(** X20.  Normalisation maps a date-tagged single string to the native date
    parsed from it (or raises what the parser raises), maps a date-tagged
    sequence of strings to the sequence of the parsed native dates in the
    same order, and returns every value that is not a mapping unchanged; for
    a mapping without the date tag the lookup of the tag raises
    [KeyError]. *)
Theorem convert_if_date_normalises (parse_date_string : string -> result datetime) :
  (forall d s,
      dict_get "$date" d = Some (VStr s) ->
      _convert_if_date parse_date_string (VDict d)
      = (date <- parse_date_string s ;; Ok (VDate date)))
  /\ (forall d strings dates,
      dict_get "$date" d = Some (VList (map VStr strings)) ->
      Forall2 (fun s date => parse_date_string s = Ok date) strings dates ->
      _convert_if_date parse_date_string (VDict d) = Ok (VList (map VDate dates)))
  /\ (forall value,
      is_mapping value = false ->
      _convert_if_date parse_date_string value = Ok value)
  /\ (forall d,
      dict_get "$date" d = None ->
      _convert_if_date parse_date_string (VDict d) = Raise KeyError).
Proof.
  repeat split.
  - intros d s Hd. unfold _convert_if_date, dict_item. rewrite Hd. reflexivity.
  - intros d strings dates Hd Hparsed. unfold _convert_if_date, dict_item.
    rewrite Hd. simpl.
    rewrite (mapM_parse_date_strings parse_date_string strings dates Hparsed). reflexivity.
  - apply convert_if_date_not_mapping.
  - intros d Hd. unfold _convert_if_date, dict_item. rewrite Hd. reflexivity.
Qed.

Lemma convert_if_date_normalises_witness :
  _convert_if_date fixture_parser (VDict [("$date", VStr "2023-01-01")])
  = Ok (VDate (mk_datetime 2023 1 1 0 0 0))
  /\ _convert_if_date fixture_parser
       (VDict [("$date", VList [VStr "2023-01-01"; VStr "2023-02-01"])])
     = Ok (VList [VDate (mk_datetime 2023 1 1 0 0 0); VDate (mk_datetime 2023 2 1 0 0 0)])
  /\ _convert_if_date fixture_parser (VList [VInt 1; VInt 2]) = Ok (VList [VInt 1; VInt 2])
  /\ _convert_if_date fixture_parser (VDict [("name", VStr "ann")]) = Raise KeyError.
Proof.
  destruct (convert_if_date_normalises fixture_parser) as [Hone [Hmany [Hplain Hkey]]].
  split; [| split; [| split]].
  - apply (Hone [("$date", VStr "2023-01-01")] "2023-01-01"). reflexivity.
  - apply (Hmany [("$date", VList [VStr "2023-01-01"; VStr "2023-02-01"])]
             ["2023-01-01"; "2023-02-01"]
             [mk_datetime 2023 1 1 0 0 0; mk_datetime 2023 2 1 0 0 0]).
    + reflexivity.
    + repeat constructor.
  - apply Hplain. reflexivity.
  - apply Hkey. reflexivity.
Defined.

(** C9.  The claim: normalisation maps date-tagged values to the parsed
    native dates and returns every untagged value unchanged, as the
    docstring of [_convert_if_date] says ("returns the same value field if
    it is not annotated as contains a date").  The code takes every mapping
    for a date-tagged one and indexes it at ["$date"]: for the untagged
    mapping [{"name": "ann"}] it raises [KeyError] where the value itself is
    expected, so the statement does not hold of every untagged value. *)
Lemma convert_if_date_untagged_mapping :
  date_tagged (VDict [("name", VStr "ann")]) = false
  /\ _convert_if_date fixture_parser (VDict [("name", VStr "ann")]) = Raise KeyError
  /\ ~ (forall (parse_date_string : string -> result datetime) (value : Value),
          date_tagged value = false ->
          _convert_if_date parse_date_string value = Ok value).
Proof.
  split; [reflexivity | split; [reflexivity |]].
  intros H.
  specialize (H fixture_parser (VDict [("name", VStr "ann")]) eq_refl).
  discriminate H.
Qed.

(** ** The filter applier *)

Lemma unsupported_tokens (operator : string) :
  supported operator = false ->
  String.eqb operator "$eq" = false /\ String.eqb operator "$ne" = false
  /\ String.eqb operator "$lt" = false /\ String.eqb operator "$lte" = false
  /\ String.eqb operator "$gt" = false /\ String.eqb operator "$gte" = false
  /\ String.eqb operator "$nin" = false /\ String.eqb operator "$in" = false.
Proof.
  unfold supported, SUPPORTED_QUERY_OPERATORS. simpl existsb.
  intros H. repeat (apply orb_false_iff in H; destruct H as [? H]).
  repeat split; assumption.
Qed.

(** An operator outside the supported set takes no branch: its value is
    normalised and the loop goes on. *)
Lemma apply_operator_unsupported (parse_date_string : string -> result datetime)
    (model_cls : Model) (record_set : option Query) (field operator : string)
    (raw value : Value) :
  supported operator = false ->
  _convert_if_date parse_date_string raw = Ok value ->
  apply_operator parse_date_string model_cls record_set field operator raw = Ok None.
Proof.
  intros Hop Hraw.
  destruct (unsupported_tokens operator Hop)
    as (Heq & Hne & Hlt & Hlte & Hgt & Hgte & Hnin & Hin).
  unfold apply_operator. rewrite Hraw. simpl.
  rewrite Heq, Hne, Hlt, Hlte, Hgt, Hgte, Hnin, Hin. reflexivity.
Qed.

(** A branch that returns, returns the record set with one predicate more. *)
Lemma apply_operator_attaches_one (parse_date_string : string -> result datetime)
    (model_cls : Model) (record_set : option Query) (field operator : string)
    (raw : Value) (returned : Query) :
  apply_operator parse_date_string model_cls record_set field operator raw
  = Ok (Some returned) ->
  exists q p, record_set = Some q /\ returned = Query_filter q p.
Proof.
  unfold apply_operator.
  destruct (_convert_if_date parse_date_string raw) as [value |]; simpl;
    [| discriminate].
  destruct record_set as [q |]; simpl.
  - destruct (getattr model_cls field) as [column |]; simpl.
    + repeat (match goal with
              | |- context [if ?b then _ else _] => destruct b
              end);
        try destruct value; simpl; intros H; try discriminate H;
        injection H as <-; eexists; eexists; split; reflexivity.
    + repeat (match goal with
              | |- context [if ?b then _ else _] => destruct b
              end);
        try destruct value; simpl; intros H; discriminate H.
  - repeat (match goal with
            | |- context [if ?b then _ else _] => destruct b
            end);
      try destruct value; simpl; intros H; discriminate H.
Qed.

Lemma apply_operators_attaches_one (parse_date_string : string -> result datetime)
    (model_cls : Model) (record_set : option Query) (field : string)
    (operators : Dict Value) (returned : Query) :
  apply_operators parse_date_string model_cls record_set field operators
  = Ok (Some returned) ->
  exists q p, record_set = Some q /\ returned = Query_filter q p.
Proof.
  induction operators as [| [operator raw] rest IH]; simpl; [discriminate |].
  destruct (apply_operator parse_date_string model_cls record_set field operator raw)
    as [[q' |] |] eqn:E; simpl.
  - intros H. injection H as <-.
    eapply apply_operator_attaches_one. exact E.
  - exact IH.
  - discriminate.
Qed.

(** Whatever the clause, [_apply_query_param] attaches at most one
    predicate: a record set it returns is its input with one filter more. *)
Lemma apply_query_param_attaches_one (parse_date_string : string -> result datetime)
    (model_cls : Model) (record_set : option Query) (params : Clause)
    (returned : Query) :
  _apply_query_param parse_date_string model_cls record_set params
  = Ok (Some returned) ->
  exists q p, record_set = Some q /\ returned = Query_filter q p.
Proof.
  induction params as [| [field operators] rest IH]; simpl; [discriminate |].
  destruct (apply_operators parse_date_string model_cls record_set field operators)
    as [[q' |] |] eqn:E; simpl.
  - intros H. injection H as <-.
    eapply apply_operators_attaches_one. exact E.
  - exact IH.
  - discriminate.
Qed.

(** C1.  The claim: every clause, every field of it and every operator and
    value pair under that field contributes one predicate to the returned
    accumulator.  The code returns from [_apply_query_param] at the first
    pair that takes a branch: for the clause
    [{"age": {"$gt": 1, "$lt": 5}}] the returned accumulator carries the
    strict greater-than predicate alone, where two predicates are expected,
    and of the two fields of [{"name": {"$eq": "ann"}, "age": {"$gt": 5}}]
    only the first contributes. *)
Theorem apply_query_param_stops_at_first_pair :
  query fixture_parser store person
    (Some [ [("age", [("$gt", VInt 1); ("$lt", VInt 5)])] ]) None
  = Ok (Some (Query_filter people (Gt_ "age" (VInt 1))))
  /\ spec_filters [ [("age", [("$gt", VInt 1); ("$lt", VInt 5)])] ]
     = [Gt_ "age" (VInt 1); Lt_ "age" (VInt 5)]
  /\ query fixture_parser store person
       (Some [ [("name", [("$eq", VStr "ann")]); ("age", [("$gt", VInt 5)])] ]) None
     = Ok (Some (Query_filter people (Eq_ "name" (VStr "ann"))))
  /\ spec_filters [ [("name", [("$eq", VStr "ann")]); ("age", [("$gt", VInt 5)])] ]
     = [Eq_ "name" (VStr "ann"); Gt_ "age" (VInt 5)].
Proof.
  repeat split; reflexivity.
Qed.

(** C2.  The claim: the predicate for [$gte] is the disjunction of strict
    greater-than and equality, the predicate for [$lte] that of strict
    less-than and equality, and boundary values satisfy it.  The code
    evaluates [value | column] first, which raises: the two inclusive
    branches return no accumulator for any model, record set, field and
    value, and [{"age": {"$gte": 3}}] on the fixture raises [TypeError],
    where the expected disjunction holds of the record whose age is 3. *)
Theorem inclusive_comparisons_raise (parse_date_string : string -> result datetime)
    (model_cls : Model) (record_set : option Query) (field : string) (raw : Value) :
  (exists e, apply_operator parse_date_string model_cls record_set field "$gte" raw
             = Raise e)
  /\ (exists e, apply_operator parse_date_string model_cls record_set field "$lte" raw
                = Raise e)
  /\ _apply_query_param fixture_parser person (Some people) [("age", [("$gte", VInt 3)])]
     = Raise TypeError
  /\ _apply_query_param fixture_parser person (Some people) [("age", [("$lte", VInt 3)])]
     = Raise TypeError
  /\ spec_predicate "age" "$gte" (VInt 3) = Some (Or_ (Gt_ "age" (VInt 3)) (Eq_ "age" (VInt 3)))
  /\ holds (Or_ (Gt_ "age" (VInt 3)) (Eq_ "age" (VInt 3)))
       [("name", VStr "ann"); ("age", VInt 3)] = true.
Proof.
  split; [| split; [| repeat split; reflexivity]];
    unfold apply_operator;
    destruct (_convert_if_date parse_date_string raw); simpl;
    try (eexists; reflexivity);
    destruct (receiver record_set); simpl; try (eexists; reflexivity);
    destruct (getattr model_cls field); simpl; eexists; reflexivity.
Qed.

(** C3.  The claim: an operator outside the supported set is ignored and the
    accumulator is still returned, without an error.  The code takes no
    branch for it, and when no operator of the clause takes one the
    function runs off its end and returns [None] in place of the
    accumulator: [query] with the one clause [{"age": {"$regex": 1}}]
    returns [None], and with a second clause after it raises
    [AttributeError], the next [filter] being looked up on [None]. *)
Theorem unsupported_operator_loses_accumulator :
  supported "$regex" = false
  /\ _apply_query_param fixture_parser person (Some people) [("age", [("$regex", VInt 1)])]
     = Ok None
  /\ query fixture_parser store person (Some [ [("age", [("$regex", VInt 1)])] ]) None
     = Ok None
  /\ query fixture_parser store person
       (Some [ [("age", [("$regex", VInt 1)])]; [("age", [("$eq", VInt 3)])] ]) None
     = Raise AttributeError.
Proof.
  repeat split; reflexivity.
Qed.

(** A clause none of whose operators is supported returns [None], whatever
    the record set. *)
Lemma apply_operators_all_unsupported (parse_date_string : string -> result datetime)
    (model_cls : Model) (record_set : option Query) (field : string)
    (operators : Dict Value) :
  Forall (fun pair => supported (fst pair) = false
                      /\ is_mapping (snd pair) = false) operators ->
  apply_operators parse_date_string model_cls record_set field operators = Ok None.
Proof.
  induction 1 as [| [operator raw] rest [Hop Hraw] _ IH]; simpl; [reflexivity |].
  simpl in Hop, Hraw.
  rewrite (apply_operator_unsupported parse_date_string model_cls record_set field
             operator raw raw Hop
             (convert_if_date_not_mapping parse_date_string raw Hraw)).
  simpl. exact IH.
Qed.

Lemma apply_query_param_all_unsupported (parse_date_string : string -> result datetime)
    (model_cls : Model) (record_set : option Query) (params : Clause) :
  Forall (fun binding =>
            Forall (fun pair => supported (fst pair) = false
                                /\ is_mapping (snd pair) = false) (snd binding))
         params ->
  _apply_query_param parse_date_string model_cls record_set params = Ok None.
Proof.
  induction 1 as [| [field operators] rest Hops _ IH]; simpl; [reflexivity |].
  simpl in Hops.
  rewrite (apply_operators_all_unsupported parse_date_string model_cls record_set
             field operators Hops).
  simpl. exact IH.
Qed.

(** C5.  The equals branch on a mapped field attaches the explicit "is null"
    test on that field when the normalised value is null and ordinary
    equality with the normalised value otherwise; that is the predicate of
    the accumulator [_apply_query_param] returns for a clause that starts
    with the equals operator. *)
Theorem equals_null_is_null_test (parse_date_string : string -> result datetime)
    (model_cls : Model) (q : Query) (field : string) (raw value : Value)
    (operators : Dict Value) (fields : Clause) :
  In field (columns model_cls) ->
  _convert_if_date parse_date_string raw = Ok value ->
  apply_operator parse_date_string model_cls (Some q) field "$eq" raw
  = Ok (Some (Query_filter q
                (match value with
                 | VNone => Is_null field
                 | _ => Eq_ field value
                 end)))
  /\ _apply_query_param parse_date_string model_cls (Some q)
       ((field, ("$eq", raw) :: operators) :: fields)
     = Ok (Some (Query_filter q
                   (match value with
                    | VNone => Is_null field
                    | _ => Eq_ field value
                    end))).
Proof.
  intros Hfield Hraw.
  assert (Hbranch :
    apply_operator parse_date_string model_cls (Some q) field "$eq" raw
    = Ok (Some (Query_filter q
                  (match value with
                   | VNone => Is_null field
                   | _ => Eq_ field value
                   end)))).
  { unfold apply_operator. rewrite Hraw. simpl.
    rewrite (getattr_mapped model_cls field Hfield).
    destruct value; reflexivity. }
  split; [exact Hbranch |].
  simpl. rewrite Hbranch. reflexivity.
Qed.

Lemma equals_null_is_null_test_witness :
  _apply_query_param fixture_parser person (Some people) [("name", [("$eq", VNone)])]
  = Ok (Some (Query_filter people (Is_null "name")))
  /\ _apply_query_param fixture_parser person (Some people) [("name", [("$eq", VStr "ann")])]
     = Ok (Some (Query_filter people (Eq_ "name" (VStr "ann")))).
Proof.
  split.
  - apply (equals_null_is_null_test fixture_parser person people "name" VNone VNone [] []).
    + simpl. auto.
    + reflexivity.
  - apply (equals_null_is_null_test fixture_parser person people "name"
             (VStr "ann") (VStr "ann") [] []).
    + simpl. auto.
    + reflexivity.
Defined.

(** ** The count adapter *)

(** Once the record set is [None] the loop over the clauses never gets a
    query back. *)
Lemma apply_params_from_none (parse_date_string : string -> result datetime)
    (model_cls : Model) (params : list Clause) (returned : Query) :
  apply_params parse_date_string model_cls None params <> Ok (Some returned).
Proof.
  induction params as [| param rest IH]; simpl; [discriminate |].
  destruct (_apply_query_param parse_date_string model_cls None param)
    as [[q' |] |] eqn:E; simpl.
  - destruct (apply_query_param_attaches_one _ _ _ _ _ E) as (q0 & p & Hq & _).
    discriminate Hq.
  - exact IH.
  - discriminate.
Qed.

(** The loop over the clauses attaches filters and nothing else. *)
Lemma apply_params_filters_only (parse_date_string : string -> result datetime)
    (model_cls : Model) (params : list Clause) (q returned : Query) :
  apply_params parse_date_string model_cls (Some q) params = Ok (Some returned) ->
  source returned = source q
  /\ exists ps, criteria returned = (criteria q ++ map Filter ps)%list.
Proof.
  revert q. induction params as [| param rest IH]; simpl; intros q H.
  - injection H as <-. split; [reflexivity |]. exists []. simpl.
    rewrite app_nil_r. reflexivity.
  - destruct (_apply_query_param parse_date_string model_cls (Some q) param)
      as [[q1 |] |] eqn:E; simpl in H.
    + destruct (apply_query_param_attaches_one _ _ _ _ _ E) as (q0 & p & Hq & ->).
      injection Hq as <-.
      destruct (IH _ H) as [Hsrc [ps Hps]]. split; [exact Hsrc |].
      exists (p :: ps). rewrite Hps. simpl. rewrite <- app_assoc. reflexivity.
    + destruct (apply_params_from_none _ _ _ _ H).
    + discriminate H.
Qed.

(** [count] hands [Query_count] a query that carries filters only: no order
    clause, no offset and no limit. *)
Lemma query_without_pagination_filters_only
    (parse_date_string : string -> result datetime)
    (session_obj : Session) (model_cls : Model) (params : option (list Clause))
    (returned : Query) :
  query parse_date_string session_obj model_cls params (Some no_pagination)
  = Ok (Some returned) ->
  source returned = source (Session_query session_obj model_cls)
  /\ exists ps, criteria returned = map Filter ps.
Proof.
  unfold query. simpl.
  destruct (apply_params parse_date_string model_cls
              (Some (Session_query session_obj model_cls))
              (match params with Some p => p | None => [] end))
    as [[q |] |] eqn:E; simpl; intros H; try discriminate H.
  injection H as <-.
  destruct (apply_params_filters_only _ _ _ _ _ E) as [Hsrc [ps Hps]].
  split; [exact Hsrc |]. exists ps. exact Hps.
Qed.

(** When [count] returns, it returns a mapping with the one key ["count"]
    and a non-negative integer. *)
Lemma count_returns_count_mapping (parse_date_string : string -> result datetime)
    (session_obj : Session) (model_cls : Model) (params : option (list Clause))
    (d : Dict Value) :
  count parse_date_string session_obj model_cls params = Ok d ->
  exists n, d = [("count", VInt n)] /\ 0 <= n.
Proof.
  unfold count.
  destruct (query parse_date_string session_obj model_cls params (Some no_pagination))
    as [[q |] |]; simpl; intros H; try discriminate H; injection H as <-.
  - exists (Query_count q). split; [reflexivity |]. unfold Query_count. lia.
  - exists 0. split; [reflexivity | lia].
Qed.

Lemma filter_all {A : Type} (l : list A) : filter (fun _ => true) l = l.
Proof.
  induction l as [| a l IH]; simpl; [reflexivity |]. rewrite IH. reflexivity.
Qed.

(** Without filter clauses [count] returns the number of records of the
    table. *)
Lemma count_without_filters (parse_date_string : string -> result datetime)
    (session_obj : Session) (model_cls : Model) :
  count parse_date_string session_obj model_cls None
  = Ok [("count",
         VInt (Z.of_nat (List.length
                           (dict_get_default (tablename model_cls) [] session_obj))))].
Proof.
  unfold count, query. simpl. unfold Query_count, selected, matching. simpl.
  rewrite filter_all. reflexivity.
Qed.

(** C8.  The claim: [count] returns the mapping of ["count"] to the number
    of records that match the filters.  The count is taken from the
    accumulator [query] returns, which carries the first predicate of each
    clause only: on the fixture, where one record has an age above 1 and
    below 5, [count] with the clause [{"age": {"$gt": 1, "$lt": 5}}] returns
    2, and with the clause [{"age": {"$regex": 1}}], for which [query]
    returns [None], it returns 0 without counting. *)
Theorem count_counts_first_predicate_only :
  count fixture_parser store person
    (Some [ [("age", [("$gt", VInt 1); ("$lt", VInt 5)])] ])
  = Ok [("count", VInt 2)]
  /\ List.length
       (records_matching [ [("age", [("$gt", VInt 1); ("$lt", VInt 5)])] ] person_rows)
     = 1%nat
  /\ count fixture_parser store person (Some [ [("age", [("$regex", VInt 1)])] ])
     = Ok [("count", VInt 0)]
  /\ List.length (records_matching [ [("age", [("$regex", VInt 1)])] ] person_rows)
     = 2%nat.
Proof.
  repeat split; reflexivity.
Qed.

(** * Further properties of the module *)

(** ** The sort applier *)

(** X1.  Whatever the model, the record set and the directives, a call of
    [_query_sort] that returns, returns the very record set it was given: no
    order clause is ever attached. *)
Theorem query_sort_never_attaches (model_cls : Model)
    (record_set returned : option Query)
    (sort_params : list (list (string * string))) :
  _query_sort model_cls record_set sort_params = Ok returned ->
  returned = record_set.
Proof.
  apply query_sort_returns_its_input.
Qed.

Lemma query_sort_never_attaches_witness :
  Some people = Some people.
Proof.
  apply (query_sort_never_attaches person (Some people) (Some people)
           [[("name", "asc")]; [("age", "DESC")]]).
  reflexivity.
Defined.

(** X2.  On a query, directives that all name mapped fields with a valid
    direction make [_query_sort] succeed; on [None] the first such directive
    raises [AttributeError], and without any directive [None] is returned. *)
Theorem query_sort_valid_directives (model_cls : Model) (q : Query)
    (sort_params : list (list (string * string)))
    (directive : string * string) (rest : list (string * string))
    (later : list (list (string * string))) :
  Forall (Forall (valid_directive model_cls)) sort_params ->
  valid_directive model_cls directive ->
  _query_sort model_cls (Some q) sort_params = Ok (Some q)
  /\ _query_sort model_cls None ((directive :: rest) :: later) = Raise AttributeError
  /\ _query_sort model_cls None [] = Ok None.
Proof.
  intros Hvalid [_ Hdir]. split; [| split].
  - unfold _query_sort. rewrite (sort_groups_valid model_cls q sort_params Hvalid).
    reflexivity.
  - unfold _query_sort. destruct directive as [field ordering]. simpl in *.
    destruct (order_func_valid ordering Hdir) as [f ->]. reflexivity.
  - reflexivity.
Qed.

Lemma query_sort_valid_directives_witness :
  _query_sort person (Some people) [[("name", "asc")]; [("age", "DESC")]]
  = Ok (Some people)
  /\ _query_sort person None [[("age", "desc")]] = Raise AttributeError
  /\ _query_sort person None [] = Ok None.
Proof.
  apply (query_sort_valid_directives person people
           [[("name", "asc")]; [("age", "DESC")]] ("age", "desc") [] []).
  - apply Forall_cons; [| apply Forall_cons; [| apply Forall_nil]].
    + apply Forall_cons; [| apply Forall_nil]. split; [simpl; auto |].
      left. apply (upper_matches "asc" "ASC" eq_refl). reflexivity.
    + apply Forall_cons; [| apply Forall_nil]. split; [simpl; auto |].
      right. apply (upper_matches "DESC" "DESC" eq_refl). reflexivity.
  - split; [simpl; auto |].
    right. apply (upper_matches "desc" "DESC" eq_refl). reflexivity.
Defined.

(** X4.  A direction that is neither token, anywhere among the directives,
    makes [_query_sort] raise, whatever the record set and whether or not
    the fields are mapped: no accumulator is returned. *)
Theorem query_sort_invalid_direction_raises (model_cls : Model)
    (record_set : option Query) (sort_params : list (list (string * string))) :
  Exists (Exists invalid_direction) sort_params ->
  exists e, _query_sort model_cls record_set sort_params = Raise e.
Proof.
  apply query_sort_invalid_raises.
Qed.

Lemma query_sort_invalid_direction_raises_witness :
  exists e,
    _query_sort person None [[("height", "asc")]; [("age", "UP")]] = Raise e.
Proof.
  apply (query_sort_invalid_direction_raises person None
           [[("height", "asc")]; [("age", "UP")]]).
  apply Exists_cons_tl. apply Exists_cons_hd. apply Exists_cons_hd.
  exact up_is_no_direction.
Defined.

(** ** The filter applier *)

Lemma apply_operators_skip (parse_date_string : string -> result datetime)
    (model_cls : Model) (record_set : option Query) (field : string)
    (skipped rest : Dict Value) :
  Forall (skipped_pair parse_date_string) skipped ->
  apply_operators parse_date_string model_cls record_set field (skipped ++ rest)%list
  = apply_operators parse_date_string model_cls record_set field rest.
Proof.
  induction 1 as [| [operator raw] skipped [Hop [value Hraw]] _ IH]; simpl;
    [reflexivity |].
  simpl in Hop, Hraw.
  rewrite (apply_operator_unsupported parse_date_string model_cls record_set field
             operator raw value Hop Hraw).
  simpl. exact IH.
Qed.

Lemma apply_query_param_skip (parse_date_string : string -> result datetime)
    (model_cls : Model) (record_set : option Query) (skipped rest : Clause) :
  Forall (fun binding => Forall (skipped_pair parse_date_string) (snd binding))
         skipped ->
  _apply_query_param parse_date_string model_cls record_set (skipped ++ rest)%list
  = _apply_query_param parse_date_string model_cls record_set rest.
Proof.
  induction 1 as [| [field operators] skipped Hops _ IH]; simpl; [reflexivity |].
  simpl in Hops.
  rewrite <- (app_nil_r operators).
  rewrite (apply_operators_skip parse_date_string model_cls record_set field
             operators [] Hops).
  simpl. exact IH.
Qed.

(** X5.  Whatever the clause, a record set that [_apply_query_param] returns
    is the query it was given with exactly one filter more; in particular
    it returns no query when it is given [None]. *)
Theorem apply_query_param_one_filter (parse_date_string : string -> result datetime)
    (model_cls : Model) (record_set : option Query) (params : Clause)
    (returned : Query) :
  _apply_query_param parse_date_string model_cls record_set params
  = Ok (Some returned) ->
  exists q p,
    record_set = Some q
    /\ source returned = source q
    /\ criteria returned = (criteria q ++ [Filter p])%list.
Proof.
  intros H.
  destruct (apply_query_param_attaches_one _ _ _ _ _ H) as (q & p & Hq & ->).
  exists q, p. repeat split. exact Hq.
Qed.

Lemma apply_query_param_one_filter_witness :
  exists q p,
    Some people = Some q
    /\ source (Query_filter people (Gt_ "age" (VInt 1))) = source q
    /\ criteria (Query_filter people (Gt_ "age" (VInt 1)))
       = (criteria q ++ [Filter p])%list.
Proof.
  apply (apply_query_param_one_filter fixture_parser person (Some people)
           [("age", [("$gt", VInt 1); ("$lt", VInt 5)]); ("name", [("$eq", VNone)])]
           (Query_filter people (Gt_ "age" (VInt 1)))).
  reflexivity.
Defined.

(** X6.  Operators outside the supported set whose values normalise are
    passed over, and so are fields that carry such operators only: the
    clause gives what the clause without them gives. *)
Theorem apply_query_param_skips_unsupported
    (parse_date_string : string -> result datetime)
    (model_cls : Model) (record_set : option Query) (field : string)
    (skipped_fields fields : Clause) (skipped operators : Dict Value) :
  Forall (fun binding => Forall (skipped_pair parse_date_string) (snd binding))
         skipped_fields ->
  Forall (skipped_pair parse_date_string) skipped ->
  _apply_query_param parse_date_string model_cls record_set
    (skipped_fields ++ (field, (skipped ++ operators)%list) :: fields)%list
  = _apply_query_param parse_date_string model_cls record_set
      ((field, operators) :: fields).
Proof.
  intros Hfields Hops.
  rewrite (apply_query_param_skip parse_date_string model_cls record_set
             skipped_fields _ Hfields).
  simpl.
  rewrite (apply_operators_skip parse_date_string model_cls record_set field
             skipped operators Hops).
  reflexivity.
Qed.

Lemma apply_query_param_skips_unsupported_witness :
  _apply_query_param fixture_parser person (Some people)
    [("name", [("$regex", VStr "a")]);
     ("age", [("$mod", VDict [("$date", VStr "2023-01-01")]); ("$lt", VInt 5)])]
  = _apply_query_param fixture_parser person (Some people) [("age", [("$lt", VInt 5)])].
Proof.
  apply (apply_query_param_skips_unsupported fixture_parser person (Some people) "age"
           [("name", [("$regex", VStr "a")])] []
           [("$mod", VDict [("$date", VStr "2023-01-01")])] [("$lt", VInt 5)]).
  - apply Forall_cons; [| apply Forall_nil].
    apply Forall_cons; [| apply Forall_nil].
    split; [reflexivity |]. exists (VStr "a"). reflexivity.
  - apply Forall_cons; [| apply Forall_nil].
    split; [reflexivity |]. exists (VDate (mk_datetime 2023 1 1 0 0 0)). reflexivity.
Defined.



(** X8.  The value of a pair is normalised before its operator is looked
    at: when normalisation raises, the clause raises the same exception,
    also for an operator outside the supported set and whatever the record
    set and the field. *)
Theorem normalisation_error_propagates
    (parse_date_string : string -> result datetime)
    (model_cls : Model) (record_set : option Query) (field operator : string)
    (raw : Value) (e : exception) (skipped operators : Dict Value) (fields : Clause) :
  Forall (skipped_pair parse_date_string) skipped ->
  _convert_if_date parse_date_string raw = Raise e ->
  _apply_query_param parse_date_string model_cls record_set
    ((field, (skipped ++ (operator, raw) :: operators)%list) :: fields)
  = Raise e.
Proof.
  intros Hskipped Hraw. simpl.
  rewrite (apply_operators_skip parse_date_string model_cls record_set field
             skipped _ Hskipped).
  simpl. unfold apply_operator. rewrite Hraw. reflexivity.
Qed.

Lemma normalisation_error_propagates_witness :
  _apply_query_param fixture_parser person None
    [("height", [("$regex", VInt 1); ("$near", VDict [("$date", VStr "tomorrow")])])]
  = Raise ValueError.
Proof.
  apply (normalisation_error_propagates fixture_parser person None "height" "$near"
           (VDict [("$date", VStr "tomorrow")]) ValueError
           [("$regex", VInt 1)] [] []).
  - apply Forall_cons; [| apply Forall_nil].
    split; [reflexivity |]. exists (VInt 1). reflexivity.
  - reflexivity.
Defined.

(** ** The pagination applier *)

Lemma query_limit_integers (q : Query) (offset_entry limit_entry : option Z)
    (sort_entry : option (list (list (string * string)))) :
  query_limit (Some q)
    (Some {| offset := option_map VInt offset_entry;
             limit := option_map VInt limit_entry;
             sort := sort_entry |})
  = Ok (Some {| source := source q;
                criteria := (criteria q ++ offset_criteria offset_entry
                               ++ limit_criteria limit_entry)%list |}).
Proof.
  unfold query_limit, offset_criteria, limit_criteria. simpl.
  destruct q as [rows cs].
  destruct offset_entry as [o |]; simpl; [destruct (0 <? o); simpl |];
    (destruct limit_entry as [l |]; simpl; [destruct (0 <? l); simpl |]);
    unfold Query_offset, Query_limit, attach; simpl;
    rewrite ?app_nil_r, <- ?app_assoc; reflexivity.
Qed.

Lemma query_limit_none (pagination_args : option PaginationArgs)
    (returned : option Query) :
  query_limit None pagination_args = Ok returned -> returned = None.
Proof.
  unfold query_limit.
  destruct (py_gt _ 0) as [[|] |]; simpl; try discriminate.
  destruct (py_gt _ 0) as [[|] |]; simpl; try discriminate.
  intros H. injection H as <-. reflexivity.
Qed.

(** X10.  For a directive with integer entries, [query_limit] on [None]
    returns [None] when neither bound is strictly positive and raises
    [AttributeError] as soon as one is. *)
Theorem query_limit_on_none (offset_entry limit_entry : option Z)
    (sort_entry : option (list (list (string * string)))) :
  query_limit None
    (Some {| offset := option_map VInt offset_entry;
             limit := option_map VInt limit_entry;
             sort := sort_entry |})
  = match (offset_criteria offset_entry ++ limit_criteria limit_entry)%list with
    | [] => Ok None
    | _ :: _ => Raise AttributeError
    end.
Proof.
  unfold query_limit, offset_criteria, limit_criteria. simpl.
  destruct offset_entry as [o |]; simpl; [destruct (0 <? o); simpl |];
    try reflexivity;
    (destruct limit_entry as [l |]; simpl; [destruct (0 <? l); simpl |]);
    reflexivity.
Qed.

(** X11.  An offset entry that is present and is neither an integer nor a
    boolean (null, a string, a date, a list, a mapping) makes [query_limit]
    raise [TypeError] whatever the record set; so does such a limit entry
    on a query when the offset entry is an integer or missing. *)
Theorem query_limit_unordered_entry (record_set : option Query) (q : Query)
    (entry : Value) (offset_entry : option Z) (other : option Value)
    (sort_entry : option (list (list (string * string)))) :
  is_number entry = false ->
  query_limit record_set
    (Some {| offset := Some entry; limit := other; sort := sort_entry |})
  = Raise TypeError
  /\ query_limit (Some q)
       (Some {| offset := option_map VInt offset_entry; limit := Some entry;
                sort := sort_entry |})
     = Raise TypeError.
Proof.
  intros Hentry. split.
  - unfold query_limit. simpl. destruct entry; try discriminate Hentry; reflexivity.
  - unfold query_limit. simpl.
    destruct offset_entry as [o |]; simpl; [destruct (0 <? o); simpl |];
      destruct entry; try discriminate Hentry; reflexivity.
Qed.

Lemma query_limit_unordered_entry_witness :
  query_limit None (Some {| offset := Some VNone; limit := None; sort := None |})
  = Raise TypeError
  /\ query_limit (Some people)
       (Some {| offset := option_map VInt (Some 2); limit := Some VNone; sort := None |})
     = Raise TypeError.
Proof.
  apply (query_limit_unordered_entry None people VNone (Some 2) None None).
  reflexivity.
Defined.

(** ** The value normaliser *)

Lemma mapM_app {A B : Type} (f : A -> result B) (l1 l2 : list A) :
  mapM f (l1 ++ l2)%list
  = (bs1 <- mapM f l1 ;; bs2 <- mapM f l2 ;; Ok (bs1 ++ bs2)%list).
Proof.
  induction l1 as [| a l1 IH]; simpl.
  - destruct (mapM f l2); reflexivity.
  - destruct (f a); simpl; [| reflexivity].
    rewrite IH. destruct (mapM f l1); simpl; [| reflexivity].
    destruct (mapM f l2); reflexivity.
Qed.

(** X12.  A value that normalisation returns is never a mapping, and
    normalising it again returns it unchanged. *)
Theorem convert_if_date_idempotent (parse_date_string : string -> result datetime)
    (raw value : Value) :
  _convert_if_date parse_date_string raw = Ok value ->
  is_mapping value = false
  /\ _convert_if_date parse_date_string value = Ok value.
Proof.
  intros H.
  assert (Hmap : is_mapping value = false).
  { destruct raw; simpl in H; try (injection H as <-; reflexivity).
    unfold dict_item in H. destruct (dict_get "$date" d) as [tagged |];
      simpl in H; [| discriminate H].
    destruct tagged; simpl in H; try discriminate H.
    - destruct (parse_date_string s); simpl in H; [| discriminate H].
      injection H as <-. reflexivity.
    - destruct (mapM (parse_date parse_date_string) l); simpl in H; [| discriminate H].
      injection H as <-. reflexivity. }
  split; [exact Hmap |].
  apply convert_if_date_not_mapping. exact Hmap.
Qed.

Lemma convert_if_date_idempotent_witness :
  is_mapping (VDate (mk_datetime 2023 2 1 0 0 0)) = false
  /\ _convert_if_date fixture_parser (VDate (mk_datetime 2023 2 1 0 0 0))
     = Ok (VDate (mk_datetime 2023 2 1 0 0 0)).
Proof.
  apply (convert_if_date_idempotent fixture_parser
           (VDict [("$date", VStr "2023-02-01")])).
  reflexivity.
Defined.

(** X13.  In a date-tagged sequence the strings are parsed in order and the
    first one the parser rejects stops the normalisation: it raises the
    parser's exception, and no partial sequence is returned. *)
Theorem convert_if_date_first_rejected (parse_date_string : string -> result datetime)
    (d : Dict Value) (parsed : list string) (dates : list datetime)
    (rejected : string) (rest : list Value) (e : exception) :
  dict_get "$date" d = Some (VList (map VStr parsed ++ VStr rejected :: rest)%list) ->
  Forall2 (fun s date => parse_date_string s = Ok date) parsed dates ->
  parse_date_string rejected = Raise e ->
  _convert_if_date parse_date_string (VDict d) = Raise e.
Proof.
  intros Hd Hparsed Hrejected. unfold _convert_if_date, dict_item. rewrite Hd. simpl.
  rewrite mapM_app.
  rewrite (mapM_parse_date_strings parse_date_string parsed dates Hparsed).
  simpl. rewrite Hrejected. reflexivity.
Qed.

Lemma convert_if_date_first_rejected_witness :
  _convert_if_date fixture_parser
    (VDict [("$date", VList [VStr "2023-01-01"; VStr "yesterday"; VInt 7])])
  = Raise ValueError.
Proof.
  apply (convert_if_date_first_rejected fixture_parser
           [("$date", VList [VStr "2023-01-01"; VStr "yesterday"; VInt 7])]
           ["2023-01-01"] [mk_datetime 2023 1 1 0 0 0] "yesterday" [VInt 7] ValueError).
  - reflexivity.
  - apply Forall2_cons; [reflexivity | apply Forall2_nil].
  - reflexivity.
Defined.

(** ** The top-level query *)

Lemma apply_params_none (parse_date_string : string -> result datetime)
    (model_cls : Model) (params : list Clause) (returned : option Query) :
  apply_params parse_date_string model_cls None params = Ok returned ->
  returned = None.
Proof.
  destruct returned as [q |]; [| reflexivity].
  intros H. destruct (apply_params_from_none _ _ _ _ H).
Qed.

Lemma apply_params_lost (parse_date_string : string -> result datetime)
    (model_cls : Model) (params : list Clause) (lost : Clause)
    (record_set returned : option Query) :
  In lost params ->
  Forall (fun binding => Forall (skipped_pair parse_date_string) (snd binding)) lost ->
  apply_params parse_date_string model_cls record_set params = Ok returned ->
  returned = None.
Proof.
  intros Hin Hlost. revert record_set.
  induction params as [| param rest IH]; intros record_set; [destruct Hin |].
  simpl.
  destruct (_apply_query_param parse_date_string model_cls record_set param)
    as [next |] eqn:E; simpl; [| discriminate].
  destruct Hin as [-> | Hin].
  - rewrite <- (app_nil_r lost) in E.
    rewrite (apply_query_param_skip parse_date_string model_cls record_set lost []
               Hlost) in E.
    simpl in E. injection E as <-. apply apply_params_none.
  - apply (IH Hin).
Qed.

Lemma apply_params_one_filter_each (parse_date_string : string -> result datetime)
    (model_cls : Model) (params : list Clause) (q returned : Query) :
  apply_params parse_date_string model_cls (Some q) params = Ok (Some returned) ->
  source returned = source q
  /\ exists ps,
       criteria returned = (criteria q ++ map Filter ps)%list
       /\ List.length ps = List.length params.
Proof.
  revert q. induction params as [| param rest IH]; simpl; intros q H.
  - injection H as <-. split; [reflexivity |]. exists []. simpl.
    rewrite app_nil_r. split; reflexivity.
  - destruct (_apply_query_param parse_date_string model_cls (Some q) param)
      as [[q1 |] |] eqn:E; simpl in H.
    + destruct (apply_query_param_attaches_one _ _ _ _ _ E) as (q0 & p & Hq & ->).
      injection Hq as <-.
      destruct (IH _ H) as [Hsrc [ps [Hps Hlen]]]. split; [exact Hsrc |].
      exists (p :: ps). rewrite Hps. simpl. rewrite <- app_assoc.
      split; [reflexivity |]. rewrite Hlen. reflexivity.
    + destruct (apply_params_from_none _ _ _ _ H).
    + discriminate H.
Qed.

(** X14.  Once one clause of the list carries no supported operator (an
    empty clause, say), [query] returns no query object, whatever the other
    clauses and the pagination arguments: it returns [None] or raises. *)
Theorem query_loses_accumulator (parse_date_string : string -> result datetime)
    (session_obj : Session) (model_cls : Model) (params : list Clause)
    (lost : Clause) (pagination_args : option PaginationArgs) :
  In lost params ->
  Forall (fun binding => Forall (skipped_pair parse_date_string) (snd binding)) lost ->
  query parse_date_string session_obj model_cls (Some params) pagination_args = Ok None
  \/ exists e,
       query parse_date_string session_obj model_cls (Some params) pagination_args
       = Raise e.
Proof.
  intros Hin Hlost. unfold query.
  destruct (apply_params parse_date_string model_cls
              (Some (Session_query session_obj model_cls)) params)
    as [record_set |] eqn:E; simpl; [| right; eexists; reflexivity].
  rewrite (apply_params_lost _ _ _ _ _ _ Hin Hlost E).
  destruct (_query_sort model_cls None _) as [sorted |] eqn:Es; simpl;
    [| right; eexists; reflexivity].
  rewrite (query_sort_returns_its_input _ _ _ _ Es).
  destruct (query_limit None _) as [limited |] eqn:El;
    [| right; eexists; reflexivity].
  left. rewrite (query_limit_none _ _ El). reflexivity.
Qed.

Lemma query_loses_accumulator_witness :
  query fixture_parser store person
    (Some [ [("age", [("$eq", VInt 3)])]; [] ]) None = Ok None
  \/ exists e,
       query fixture_parser store person
         (Some [ [("age", [("$eq", VInt 3)])]; [] ]) None = Raise e.
Proof.
  apply (query_loses_accumulator fixture_parser store person
           [ [("age", [("$eq", VInt 3)])]; [] ] [] None).
  - simpl. auto.
  - apply Forall_nil.
Defined.

(** X15.  A query object that [query] returns selects from the model's
    table and carries exactly one filter for each clause of the list, then
    the offset, then the limit (for integer pagination entries), and no
    order clause, whatever the sort directives. *)
Theorem query_composition (parse_date_string : string -> result datetime)
    (session_obj : Session) (model_cls : Model) (params : list Clause)
    (offset_entry limit_entry : option Z)
    (sort_entry : option (list (list (string * string)))) (returned : Query) :
  query parse_date_string session_obj model_cls (Some params)
    (Some {| offset := option_map VInt offset_entry;
             limit := option_map VInt limit_entry;
             sort := sort_entry |})
  = Ok (Some returned) ->
  source returned = dict_get_default (tablename model_cls) [] session_obj
  /\ orderings returned = []
  /\ exists ps,
       List.length ps = List.length params
       /\ criteria returned
          = (map Filter ps ++ offset_criteria offset_entry
               ++ limit_criteria limit_entry)%list.
Proof.
  unfold query. simpl.
  destruct (apply_params parse_date_string model_cls
              (Some (Session_query session_obj model_cls)) params)
    as [[q |] |] eqn:E; simpl; [| | discriminate].
  - destruct (_query_sort model_cls (Some q) _) as [sorted |] eqn:Es; simpl;
      [| discriminate].
    rewrite (query_sort_returns_its_input _ _ _ _ Es).
    rewrite query_limit_integers. intros H. injection H as <-. simpl.
    destruct (apply_params_one_filter_each _ _ _ _ _ E) as [Hsrc [ps [Hps Hlen]]].
    simpl in Hsrc, Hps. split; [exact Hsrc | split].
    + unfold orderings. simpl. rewrite Hps.
      rewrite !flat_map_app.
      assert (Hf : forall l, flat_map (fun c => match c with
                                                | Order_by o => [o]
                                                | _ => []
                                                end) (map Filter l) = []).
      { intros l. induction l as [| p l IHl]; simpl; [reflexivity | exact IHl]. }
      rewrite Hf. simpl.
      unfold offset_criteria, limit_criteria.
      destruct offset_entry as [o |]; [destruct (0 <? o) |];
        (destruct limit_entry as [l |]; [destruct (0 <? l) |]); reflexivity.
    + exists ps. split; [exact Hlen |]. rewrite Hps. reflexivity.
  - destruct (_query_sort model_cls None _) as [sorted |] eqn:Es; simpl;
      [| discriminate].
    rewrite (query_sort_returns_its_input _ _ _ _ Es).
    intros H. apply query_limit_none in H. discriminate H.
Qed.

Lemma query_composition_witness :
  source (mk_query person_rows
            [Filter (Gt_ "age" (VInt 1)); Filter (Is_null "name");
             Offset (VInt 1); Limit (VInt 5)])
  = dict_get_default (tablename person) [] store
  /\ orderings (mk_query person_rows
                  [Filter (Gt_ "age" (VInt 1)); Filter (Is_null "name");
                   Offset (VInt 1); Limit (VInt 5)]) = []
  /\ exists ps,
       List.length ps
       = List.length [ [("age", [("$gt", VInt 1); ("$lt", VInt 9)])];
                       [("name", [("$eq", VNone)])] ]
       /\ criteria (mk_query person_rows
                      [Filter (Gt_ "age" (VInt 1)); Filter (Is_null "name");
                       Offset (VInt 1); Limit (VInt 5)])
          = (map Filter ps ++ offset_criteria (Some 1) ++ limit_criteria (Some 5))%list.
Proof.
  apply (query_composition fixture_parser store person
           [ [("age", [("$gt", VInt 1); ("$lt", VInt 9)])]; [("name", [("$eq", VNone)])] ]
           (Some 1) (Some 5) (Some [[("age", "desc")]])).
  reflexivity.
Defined.

(** X16.  A sort directive whose direction is neither token makes [query]
    raise, whatever the clauses and the other pagination entries: no query
    object and no [None] is returned. *)
Theorem query_invalid_direction_raises (parse_date_string : string -> result datetime)
    (session_obj : Session) (model_cls : Model) (params : option (list Clause))
    (offset_entry limit_entry : option Value)
    (sort_params : list (list (string * string))) :
  Exists (Exists invalid_direction) sort_params ->
  exists e,
    query parse_date_string session_obj model_cls params
      (Some {| offset := offset_entry; limit := limit_entry;
               sort := Some sort_params |})
    = Raise e.
Proof.
  intros Hinvalid. unfold query. simpl.
  destruct (apply_params parse_date_string model_cls _ _) as [record_set |]; simpl;
    [| eexists; reflexivity].
  destruct (query_sort_invalid_raises model_cls record_set sort_params Hinvalid)
    as [e ->].
  simpl. eexists. reflexivity.
Qed.

Lemma query_invalid_direction_raises_witness :
  exists e,
    query fixture_parser store person None
      (Some {| offset := None; limit := Some (VInt 1);
               sort := Some [[("age", "UP")]] |})
    = Raise e.
Proof.
  apply (query_invalid_direction_raises fixture_parser store person None
           None (Some (VInt 1)) [[("age", "UP")]]).
  apply Exists_cons_hd. apply Exists_cons_hd. exact up_is_no_direction.
Defined.

(** ** The count adapter *)




Lemma filters_of_filters (rows : list Row) (ps : list ColumnElement) :
  filters {| source := rows; criteria := map Filter ps |} = ps.
Proof.
  unfold filters. simpl.
  induction ps as [| p ps IH]; simpl; [reflexivity |]. rewrite IH. reflexivity.
Qed.

Lemma no_bounds_of_filters (rows : list Row) (ps : list ColumnElement) :
  offset_of {| source := rows; criteria := map Filter ps |} = None
  /\ limit_of {| source := rows; criteria := map Filter ps |} = None.
Proof.
  unfold offset_of, limit_of. simpl.
  induction ps as [| p ps [IHo IHl]]; simpl; split; auto.
Qed.

Lemma count_of_filters (rows : list Row) (ps : list ColumnElement) :
  Query_count {| source := rows; criteria := map Filter ps |}
  = Z.of_nat (List.length
                (filter (fun row => forallb (fun p => holds p row) ps) rows)).
Proof.
  unfold Query_count, selected.
  destruct (no_bounds_of_filters rows ps) as [-> ->].
  unfold matching. rewrite filters_of_filters. reflexivity.
Qed.

Lemma filter_length_le {A : Type} (f : A -> bool) (l : list A) :
  (List.length (filter f l) <= List.length l)%nat.
Proof.
  induction l as [| a l IH]; simpl; [lia |]. destruct (f a); simpl; lia.
Qed.

(** The query that [query] returns for an empty pagination directive. *)
Lemma query_unpaginated_shape (parse_date_string : string -> result datetime)
    (session_obj : Session) (model_cls : Model) (params : option (list Clause))
    (returned : Query) :
  query parse_date_string session_obj model_cls params (Some no_pagination)
  = Ok (Some returned) ->
  exists ps,
    returned = {| source := dict_get_default (tablename model_cls) [] session_obj;
                  criteria := map Filter ps |}
    /\ List.length ps
       = List.length (match params with Some p => p | None => [] end).
Proof.
  unfold query. simpl.
  destruct (apply_params parse_date_string model_cls
              (Some (Session_query session_obj model_cls))
              (match params with Some p => p | None => [] end))
    as [[q |] |] eqn:E; simpl; intros H; try discriminate H.
  injection H as <-.
  destruct (apply_params_one_filter_each _ _ _ _ _ E) as [Hsrc [ps [Hps Hlen]]].
  exists ps. split; [| exact Hlen].
  destruct q as [rows cs]. simpl in Hsrc, Hps. subst rows cs. reflexivity.
Qed.

(** X17.  Whenever [count] returns, it returns the mapping with the single
    key ["count"].  Its value is 0 when [query] returned [None]; otherwise
    it is what [Query.count()] gives on the query that [query] returned, a
    query over the model's table that carries one filter for each clause and
    nothing else.  In both cases the value lies between 0 and the number of
    records of the table, and [count] returns only when [query] does. *)
Theorem count_returns_query_count (parse_date_string : string -> result datetime)
    (session_obj : Session) (model_cls : Model) (params : option (list Clause))
    (d : Dict Value) :
  count parse_date_string session_obj model_cls params = Ok d ->
  exists n,
    d = [("count", VInt n)]
    /\ 0 <= n <= Z.of_nat (List.length
                             (dict_get_default (tablename model_cls) [] session_obj))
    /\ match query parse_date_string session_obj model_cls params
               (Some no_pagination) with
       | Ok (Some q) =>
           n = Query_count q
           /\ exists ps,
                q = {| source := dict_get_default (tablename model_cls) [] session_obj;
                       criteria := map Filter ps |}
                /\ List.length ps
                   = List.length (match params with Some p => p | None => [] end)
       | Ok None => n = 0
       | Raise _ => False
       end.
Proof.
  unfold count.
  destruct (query parse_date_string session_obj model_cls params (Some no_pagination))
    as [[q |] |] eqn:E; simpl; intros H; try discriminate H; injection H as <-.
  - destruct (query_unpaginated_shape _ _ _ _ _ E) as [ps [Hq Hlen]].
    exists (Query_count q). split; [reflexivity |]. split.
    + rewrite Hq, count_of_filters.
      pose proof (filter_length_le
                    (fun row => forallb (fun p => holds p row) ps)
                    (dict_get_default (tablename model_cls) [] session_obj)).
      lia.
    + split; [reflexivity |]. exists ps. split; assumption.
  - exists 0. split; [reflexivity |]. split; [lia | reflexivity].
Qed.

Lemma count_returns_query_count_witness :
  exists n,
    [("count", VInt 2)] = [("count", VInt n)]
    /\ 0 <= n <= Z.of_nat (List.length (dict_get_default (tablename reading) [] archive))
    /\ match query fixture_parser archive reading
               (Some [ [("level", [("$gt", VInt 5); ("$lt", VInt 7)])] ])
               (Some no_pagination) with
       | Ok (Some q) =>
           n = Query_count q
           /\ exists ps,
                q = {| source := dict_get_default (tablename reading) [] archive;
                       criteria := map Filter ps |}
                /\ List.length ps
                   = List.length [ [("level", [("$gt", VInt 5); ("$lt", VInt 7)])] ]
       | Ok None => n = 0
       | Raise _ => False
       end.
Proof.
  apply (count_returns_query_count fixture_parser archive reading
           (Some [ [("level", [("$gt", VInt 5); ("$lt", VInt 7)])] ])).
  reflexivity.
Defined.



(** X19.  Without filter clauses, absent or empty, [count] returns the
    number of records of the model's table. *)
Theorem count_all_records (parse_date_string : string -> result datetime)
    (session_obj : Session) (model_cls : Model) :
  count parse_date_string session_obj model_cls None
  = Ok [("count",
         VInt (Z.of_nat (List.length
                           (dict_get_default (tablename model_cls) [] session_obj))))]
  /\ count parse_date_string session_obj model_cls (Some [])
     = count parse_date_string session_obj model_cls None.
Proof.
  split; [apply count_without_filters | reflexivity].
Qed.
